(** * openclaw: the skills tool and the configuration-schema HTTP handler

    A shallow embedding of two TypeScript sources:

    - the agent tool created by [createSkillsTool] (its [execute] function),
      which shapes a payload per action and forwards it to the gateway;
    - [handleConfigSchemaHttpRequest] of [src/gateway/config-schema-http.ts],
      which serves the composed configuration schema over HTTP.

    JavaScript values are an inductive type whose objects are finite maps;
    thrown exceptions and logged effects are threaded through a small
    error-and-log monad.  Helpers that the two sources import from files
    that are not at hand are either parameters of the embedding or, where a
    property is about the helper itself, modelled from the prose
    specification and marked as such. *)

From Stdlib Require Import QArith Qround Ascii.
From stdpp Require Import gmap strings list fin_maps.

Set Warnings "-register-all".
Set Default Proof Using "Type".

Local Open Scope Z_scope.

(* ===================================================================== *)
(** * Part I: definitions                                                 *)
(* ===================================================================== *)

(** ** JavaScript values *)

Module Js.

(** A JavaScript number.  The finite doubles are embedded in the
    rationals: [Math.floor] and [Math.max], the only arithmetic the
    sources perform, are exact on doubles, so nothing is rounded. *)
Inductive number : Type :=
| NaN
| Infinity (negative : bool)
| Finite (q : Q).

Inductive value : Type :=
| JUndefined
| JNull
| JBool (b : bool)
| JNum (n : number)
| JStr (s : string)
| JArr (items : list value)
| JObj (fields : gmap string value).

(** [Record<string, unknown>] *)
Abbreviation object := (gmap string value).

(** [o.k] / [o[k]]: a missing property reads as [undefined]. *)
Definition get (o : object) (k : string) : value :=
  default JUndefined (o !! k).

(** [typeof v] *)
Definition typeof (v : value) : string :=
  match v with
  | JUndefined => "undefined"
  | JNull => "object"
  | JBool _ => "boolean"
  | JNum _ => "number"
  | JStr _ => "string"
  | JArr _ => "object"
  | JObj _ => "object"
  end.

(** [Array.isArray(v)] *)
Definition Array_isArray (v : value) : bool :=
  match v with JArr _ => true | _ => false end.

(** [Number.isFinite(n)] on a value already known to be a number. *)
Definition Number_isFinite (n : number) : bool :=
  match n with Finite _ => true | _ => false end.

(** [Math.floor(n)] *)
Definition Math_floor (n : number) : number :=
  match n with
  | Finite q => Finite (inject_Z (Qfloor q))
  | other => other
  end.

(** [Math.max(a, b)] *)
Definition Math_max (a b : number) : number :=
  match a, b with
  | NaN, _ | _, NaN => NaN
  | Infinity false, _ | _, Infinity false => Infinity false
  | Infinity true, x | x, Infinity true => x
  | Finite p, Finite q => Finite (if Qle_bool p q then q else p)
  end.

(** ToBoolean, as applied by [if (v)], [v && ...] and [v ? a : b]. *)
Definition truthy (v : value) : bool :=
  match v with
  | JUndefined | JNull => false
  | JBool b => b
  | JNum NaN => false
  | JNum (Infinity _) => true
  | JNum (Finite q) => negb (Qeq_bool q 0)
  | JStr s => negb (String.eqb s "")
  | JArr _ | JObj _ => true
  end.

(** A [string | undefined] seen as a value. *)
Definition of_option (o : option string) : value :=
  match o with Some s => JStr s | None => JUndefined end.

(** [{ ...o, ...extra }]: properties of the later operand win. *)
Definition spread (o extra : object) : object := extra ∪ o.

(** Strings are UTF-8 byte strings, as the string literals of this file
    are.  [String.prototype.trim] removes the code points of WhiteSpace
    and LineTerminator: tab, line feed, vertical tab, form feed, carriage
    return and space, which are single bytes, then U+00A0, U+1680,
    U+2000 to U+200A, U+2028, U+2029, U+202F, U+205F, U+3000 and U+FEFF,
    which take two or three bytes. *)
Definition is_whitespace (a : Ascii.ascii) : bool :=
  let n := Ascii.N_of_ascii a in
  (N.eqb n 32 || (N.leb 9 n && N.leb n 13))%bool.

Definition byte_is (n : N) (a : Ascii.ascii) : bool :=
  N.eqb (Ascii.N_of_ascii a) n.

(** U+00A0 is [C2 A0]. *)
Definition is_whitespace2 (a b : Ascii.ascii) : bool :=
  (byte_is 194 a && byte_is 160 b)%bool.

(** U+1680 is [E1 9A 80]; U+2000 to U+200A, U+2028, U+2029 and U+202F are
    [E2 80 80] to [E2 80 8A], [E2 80 A8], [E2 80 A9] and [E2 80 AF];
    U+205F is [E2 81 9F]; U+3000 is [E3 80 80]; U+FEFF is [EF BB BF]. *)
Definition is_whitespace3 (a b c : Ascii.ascii) : bool :=
  let n := Ascii.N_of_ascii c in
  ((byte_is 225 a && byte_is 154 b && byte_is 128 c)
   || (byte_is 226 a && byte_is 128 b
       && ((N.leb 128 n && N.leb n 138) || N.eqb n 168 || N.eqb n 169
           || N.eqb n 175))
   || (byte_is 226 a && byte_is 129 b && byte_is 159 c)
   || (byte_is 227 a && byte_is 128 b && byte_is 128 c)
   || (byte_is 239 a && byte_is 187 b && byte_is 191 c))%bool.

Fixpoint trimStart (s : string) : string :=
  match s with
  | EmptyString => EmptyString
  | String a rest =>
      if is_whitespace a then trimStart rest
      else
        match rest with
        | String b rest1 =>
            if is_whitespace2 a b then trimStart rest1
            else
              match rest1 with
              | String c rest2 =>
                  if is_whitespace3 a b c then trimStart rest2 else s
              | EmptyString => s
              end
        | EmptyString => s
        end
  end.

(** The string consists of white space. *)
Fixpoint whitespace_only (s : string) : bool :=
  match s with
  | EmptyString => true
  | String a rest =>
      if is_whitespace a then whitespace_only rest
      else
        match rest with
        | String b rest1 =>
            if is_whitespace2 a b then whitespace_only rest1
            else
              match rest1 with
              | String c rest2 =>
                  (is_whitespace3 a b c && whitespace_only rest2)%bool
              | EmptyString => false
              end
        | EmptyString => false
        end
  end.

(** The longest suffix that consists of white space is dropped. *)
Fixpoint trimEnd (s : string) : string :=
  match s with
  | EmptyString => EmptyString
  | String a rest =>
      if whitespace_only s then EmptyString else String a (trimEnd rest)
  end.

(** [s.trim()] *)
Definition trim (s : string) : string := trimEnd (trimStart s).

(** What a [catch (err)] clause can receive.  The sources observe a
    thrown value only through
    [String(err instanceof Error ? err.message : err)], so an exception
    is an [Error] instance with its message, or a bare string. *)
Inductive thrown : Type :=
| ErrorInstance (message : string)
| ThrownString (s : string).

(** [String(err instanceof Error ? err.message : err)] *)
Definition error_text (err : thrown) : string :=
  match err with
  | ErrorInstance message => message
  | ThrownString s => s
  end.

(** A value of type [unknown] handed to [JSON.stringify]: JSON data, or
    an object on which [JSON.stringify] throws [err] (a cycle, a
    [BigInt], a [toJSON] that throws). *)
Inductive unknown : Type :=
| Json (v : value)
| Unserialisable (err : thrown).

End Js.

(** ** Exceptions and an effect log *)

Module Eff.
Import Js.

Inductive result (A : Type) : Type :=
| Ok (a : A)
| Throw (err : thrown).
Arguments Ok {A} a.
Arguments Throw {A} err.

(** A computation that appends events of type [E] to a log and either
    returns or throws. *)
Definition eff (E A : Type) : Type := (result A * list E)%type.

Definition ret {E A} (a : A) : eff E A := (Ok a, []).

Definition throw {E A} (err : thrown) : eff E A := (Throw err, []).

Definition emit {E} (e : E) : eff E unit := (Ok tt, [e]).

Definition lift {E A} (r : result A) : eff E A := (r, []).

Definition bind {E A B} (m : eff E A) (k : A -> eff E B) : eff E B :=
  match m with
  | (Ok a, log) => let '(r, log') := k a in (r, log ++ log')
  | (Throw err, log) => (Throw err, log)
  end.

(** [try { m } catch (err) { handler err }] *)
Definition try_catch {E A} (m : eff E A) (handler : thrown -> eff E A)
  : eff E A :=
  match m with
  | (Ok a, log) => (Ok a, log)
  | (Throw err, log) => let '(r, log') := handler err in (r, log ++ log')
  end.

Definition outcome {E A} (m : eff E A) : result A := fst m.
Definition log {E A} (m : eff E A) : list E := snd m.

Declare Scope eff_scope.
Delimit Scope eff_scope with eff.
Notation "x <- m ;; k" := (bind m (fun x => k))
  (at level 100, m at next level, right associativity) : eff_scope.
Notation "m ;;; k" := (bind m (fun _ => k))
  (at level 100, right associativity) : eff_scope.

End Eff.

(** ** The skills tool: [createSkillsTool().execute] *)

Module SkillsTool.
Import Js Eff.
Local Open Scope eff_scope.

Definition SKILLS_ACTIONS : list string :=
  ["status"; "install"; "update"; "bins"].

(** The options object of [readStringParam]; an option left out of the
    call takes its default ([required: false], [trim: true]). *)
Record StringParamOptions : Type := {
  opt_required : bool;
  opt_trim : bool;
}.

Definition defaults : StringParamOptions :=
  {| opt_required := false; opt_trim := true |}.
Definition required : StringParamOptions :=
  {| opt_required := true; opt_trim := true |}.
Definition untrimmed : StringParamOptions :=
  {| opt_required := false; opt_trim := false |}.

(** Modelled from the spec: the parameter error of [readStringParam]
    ("Required fields missing or empty/whitespace-only fail with a
    parameter error"); [./common.js] is not among the sources. *)
Definition ParameterError (key : string) : thrown :=
  ErrorInstance (key +:+ " required").

(** Modelled from the spec: [readStringParam] of [./common.js], which is
    not among the sources.  A parameter that is not a string, or that is
    empty (after trimming, unless [trim: false]), is missing: a required
    one fails with a parameter error, an optional one reads as
    [undefined].  Otherwise the (trimmed) string is returned. *)
Definition readStringParam (params : object) (key : string)
    (options : StringParamOptions) : result (option string) :=
  match get params key with
  | JStr raw =>
      let value := if opt_trim options then trim raw else raw in
      if String.eqb value "" then
        if opt_required options then Throw (ParameterError key) else Ok None
      else Ok (Some value)
  | _ =>
      if opt_required options then Throw (ParameterError key) else Ok None
  end.

Record GatewayCallOptions : Type := {
  gatewayUrl : option string;
  gatewayToken : option string;
  timeoutMs : number;
}.

(** One invocation of [callGatewayTool(method, opts, params)]. *)
Record gateway_call : Type := GatewayCall {
  call_method : string;
  call_opts : GatewayCallOptions;
  call_params : object;
}.

Section Execute.
(** The remote call layer of [./gateway.js]: what the awaited promise
    settles to (a rejection is [Throw]). *)
Variable callGatewayTool :
  string -> GatewayCallOptions -> object -> result value.
(** The output envelope of [./common.js]. *)
Variable AgentToolResult : Type.
Variable jsonResult : value -> AgentToolResult.

(** [await callGatewayTool(method, opts, params)] *)
Definition await_callGatewayTool (method : string)
    (opts : GatewayCallOptions) (params : object)
  : eff gateway_call value :=
  emit (GatewayCall method opts params) ;;;
  lift (callGatewayTool method opts params).

Definition execute (args : object) : eff gateway_call AgentToolResult :=
  let params := args in
  action <- lift (readStringParam params "action" required) ;;
  gatewayUrl <- lift (readStringParam params "gatewayUrl" untrimmed) ;;
  gatewayToken <- lift (readStringParam params "gatewayToken" untrimmed) ;;
  let gatewayOpts := {|
    gatewayUrl := gatewayUrl;
    gatewayToken := gatewayToken;
    timeoutMs :=
      match get params "timeoutMs" with
      | JNum n => n  (* typeof params.timeoutMs === "number" *)
      | _ => Finite 60000
      end;
  |} in
  let action_text := default "undefined" action in
  if String.eqb action_text "status" then
    agentId <- lift (readStringParam params "agentId" defaults) ;;
    let statusParams : object :=
      if truthy (of_option agentId)
      then <["agentId" := of_option agentId]> ∅
      else ∅ in
    r <- await_callGatewayTool "skills.status" gatewayOpts statusParams ;;
    ret (jsonResult r)
  else if String.eqb action_text "install" then
    name <- lift (readStringParam params "name" required) ;;
    installId <- lift (readStringParam params "installId" required) ;;
    let timeoutMs : value :=
      match get params "timeoutMs" with
      | JNum n =>  (* typeof params.timeoutMs === "number" *)
          if Number_isFinite n
          then JNum (Math_max (Finite 1000) (Math_floor n))
          else JUndefined
      | _ => JUndefined
      end in
    r <- await_callGatewayTool "skills.install" gatewayOpts
           (spread
              (<["installId" := of_option installId]>
                 (<["name" := of_option name]> ∅))
              (if truthy timeoutMs
               then <["timeoutMs" := timeoutMs]> ∅
               else ∅)) ;;
    ret (jsonResult r)
  else if String.eqb action_text "update" then
    skillKey <- lift (readStringParam params "skillKey" required) ;;
    let payload : object := <["skillKey" := of_option skillKey]> ∅ in
    let payload :=
      if String.eqb (typeof (get params "enabled")) "boolean"
      then <["enabled" := get params "enabled"]> payload
      else payload in
    let payload :=
      if String.eqb (typeof (get params "apiKey")) "string"
      then <["apiKey" := get params "apiKey"]> payload
      else payload in
    let payload :=
      if (truthy (get params "env")
          && String.eqb (typeof (get params "env")) "object"
          && negb (Array_isArray (get params "env")))%bool
      then <["env" := get params "env"]> payload
      else payload in
    r <- await_callGatewayTool "skills.update" gatewayOpts payload ;;
    ret (jsonResult r)
  else if String.eqb action_text "bins" then
    r <- await_callGatewayTool "skills.bins" gatewayOpts ∅ ;;
    ret (jsonResult r)
  else
    throw (ErrorInstance ("Unknown action: " +:+ action_text)).

End Execute.

Arguments execute callGatewayTool {AgentToolResult} jsonResult args.

(** *** Vocabulary of the properties *)


(** The action an invocation dispatches on. *)
Definition action_is (params : object) (action : string) : Prop :=
  readStringParam params "action" required = Ok (Some action).


(** A timeout that is a number, finite and strictly positive. *)
Definition positive_finite (n : number) : bool :=
  match n with
  | Finite q => negb (Qle_bool q 0)
  | _ => false
  end.

(** What the awaited call settles an invocation to: the wrapped result,
    or the rejection of the remote call. *)
Definition settle {AgentToolResult : Type}
    (jsonResult : value -> AgentToolResult) (r : result value)
  : result AgentToolResult :=
  match r with
  | Ok v => Ok (jsonResult v)
  | Throw err => Throw err
  end.

(** The options an invocation builds once its two optional gateway
    parameters are read (lines 47-51). *)
Definition options_of (params : object) (url token : option string)
  : GatewayCallOptions :=
  {| gatewayUrl := url;
     gatewayToken := token;
     timeoutMs :=
       match get params "timeoutMs" with
       | JNum n => n
       | _ => Finite 60000
       end |}.

(** The properties of [SkillsToolSchema] (lines 8-20): the arguments the
    tool declares. *)
Definition SkillsToolSchema_keys : list string :=
  ["action"; "gatewayUrl"; "gatewayToken"; "timeoutMs"; "agentId"; "name";
   "installId"; "skillKey"; "enabled"; "apiKey"; "env"].

(** The fields a payload may hold, by the gateway method it is sent to. *)
Definition payload_keys (method : string) : gset string :=
  if String.eqb method "skills.status" then {[ "agentId" ]}
  else if String.eqb method "skills.install"
       then {[ "name"; "installId"; "timeoutMs" ]}
  else if String.eqb method "skills.update"
       then {[ "skillKey"; "enabled"; "apiKey"; "env" ]}
  else ∅.

(** The gateway methods of the four actions. *)
Definition gateway_methods : list string :=
  ["skills.status"; "skills.install"; "skills.update"; "skills.bins"].

End SkillsTool.

(** ** The HTTP handler: [handleConfigSchemaHttpRequest] *)

Module ConfigSchemaHttp.
Import Js Eff.
Local Open Scope eff_scope.

Definition SCHEMA_PATH : string := "/openclaw.schema.json".

(** The platform's [new URL(input, "http://localhost")], observed through
    [.pathname]; [None] when the constructor throws.  The WHATWG parser
    is not part of the repository, so it is an interface: the two facts
    are the ones the handler's routing relies on. *)
Class URLConstructor : Type := {
  URL_pathname : string -> option string;
  URL_pathname_root : URL_pathname "/" = Some "/";
  URL_pathname_query : forall search,
    URL_pathname (SCHEMA_PATH +:+ "?" +:+ search) = Some SCHEMA_PATH;
}.

(** [IncomingMessage], as far as the handler reads it. *)
Record IncomingMessage : Type := {
  method : option string;
  url : option string;
}.

(** A plugin of the registry, as far as the handler reads it. *)
Module PluginRecord.
Record t : Type := {
  id : string;
  name : string;
  description : option string;
  configUiHints : option value;
  configJsonSchema : option value;
}.
End PluginRecord.

Module ChannelPlugin.
Record Meta : Type := { label : string; blurb : string }.
Record ConfigSchema : Type := {
  schema : option value;
  uiHints : option value;
}.
Record t : Type := {
  id : string;
  meta : Meta;
  configSchema : option ConfigSchema;
}.
End ChannelPlugin.

(** The two kinds of descriptor handed to [buildConfigSchema]. *)
Module PluginDescriptor.
Record t : Type := {
  id : string;
  name : string;
  description : option string;
  configUiHints : option value;
  configSchema : option value;
}.
End PluginDescriptor.

Module ChannelDescriptor.
Record t : Type := {
  id : string;
  label : string;
  description : string;
  configSchema : option value;
  configUiHints : option value;
}.
End ChannelDescriptor.

Record PluginRegistry : Type := { plugins : list PluginRecord.t }.
Record ConfigSchemaResponse : Type := { schema : unknown }.

(** The functions the handler imports from the rest of the repository.
    Each either returns or throws. *)
Record Collaborators (OpenClawConfig : Type) : Type := {
  loadConfig : result OpenClawConfig;
  resolveDefaultAgentId : OpenClawConfig -> result string;
  resolveAgentWorkspaceDir : OpenClawConfig -> string -> result string;
  loadOpenClawPlugins : OpenClawConfig -> string -> result PluginRegistry;
  listChannelPlugins : result (list ChannelPlugin.t);
  buildConfigSchema :
    list PluginDescriptor.t -> list ChannelDescriptor.t ->
    result ConfigSchemaResponse;
}.
Arguments loadConfig {OpenClawConfig} _.
Arguments resolveDefaultAgentId {OpenClawConfig} _ _.
Arguments resolveAgentWorkspaceDir {OpenClawConfig} _ _ _.
Arguments loadOpenClawPlugins {OpenClawConfig} _ _ _.
Arguments listChannelPlugins {OpenClawConfig} _.
Arguments buildConfigSchema {OpenClawConfig} _ _ _.

Inductive collaborator : Type :=
| LoadConfig
| ResolveDefaultAgentId
| ResolveAgentWorkspaceDir
| LoadOpenClawPlugins
| ListChannelPlugins
| BuildConfigSchema.

(** The text written by [res.end(JSON.stringify(body))]. *)
Inductive chunk : Type := JSON_stringify (body : value).

(** What a request makes the handler do, in order: calls of the
    collaborators and writes to the [ServerResponse]. *)
Inductive event : Type :=
| Invoked (c : collaborator)
| Res_statusCode (status : Z)
| Res_setHeader (name content : string)
| Res_end (data : option chunk).

Definition is_invocation (e : event) : bool :=
  match e with Invoked _ => true | _ => false end.

Definition invoke {A} (c : collaborator) (r : result A) : eff event A :=
  emit (Invoked c) ;;; lift r.

(** [JSON.stringify(body)] *)
Definition stringify (body : unknown) : result chunk :=
  match body with
  | Json v => Ok (JSON_stringify v)
  | Unserialisable err => Throw err
  end.

(** The status and the header are set before [JSON.stringify(body)], the
    argument of [res.end], is evaluated. *)
Definition sendJson (status : Z) (body : unknown) : eff event unit :=
  emit (Res_statusCode status) ;;;
  emit (Res_setHeader "Content-Type" "application/json; charset=utf-8") ;;;
  text <- lift (stringify body) ;;
  emit (Res_end (Some text)).

(** [req.method === m] *)
Definition method_is (req : IncomingMessage) (m : string) : bool :=
  match method req with
  | Some s => String.eqb s m
  | None => false
  end.

Section Handler.
Context {U : URLConstructor}.
Context {OpenClawConfig : Type} (c : Collaborators OpenClawConfig).

(** [new URL(input, "http://localhost").pathname]; the constructor
    throws a [TypeError] on input it cannot parse. *)
Definition new_URL_pathname (input : string) : eff event string :=
  match URL_pathname input with
  | Some pathname => ret pathname
  | None => throw (ErrorInstance "Invalid URL")
  end.

Definition plugin_descriptor (plugin : PluginRecord.t)
  : PluginDescriptor.t :=
  {| PluginDescriptor.id := PluginRecord.id plugin;
     PluginDescriptor.name := PluginRecord.name plugin;
     PluginDescriptor.description := PluginRecord.description plugin;
     PluginDescriptor.configUiHints := PluginRecord.configUiHints plugin;
     PluginDescriptor.configSchema :=
       PluginRecord.configJsonSchema plugin |}.

Definition channel_descriptor (entry : ChannelPlugin.t)
  : ChannelDescriptor.t :=
  {| ChannelDescriptor.id := ChannelPlugin.id entry;
     ChannelDescriptor.label :=
       ChannelPlugin.label (ChannelPlugin.meta entry);
     ChannelDescriptor.description :=
       ChannelPlugin.blurb (ChannelPlugin.meta entry);
     ChannelDescriptor.configSchema :=
       cs ← ChannelPlugin.configSchema entry; ChannelPlugin.schema cs;
     ChannelDescriptor.configUiHints :=
       cs ← ChannelPlugin.configSchema entry; ChannelPlugin.uiHints cs |}.

(** The body of the [try] block (lines 38-66). *)
Definition load_and_send : eff event unit :=
  cfg <- invoke LoadConfig (loadConfig c) ;;
  agentId <- invoke ResolveDefaultAgentId (resolveDefaultAgentId c cfg) ;;
  workspaceDir <- invoke ResolveAgentWorkspaceDir
                    (resolveAgentWorkspaceDir c cfg agentId) ;;
  pluginRegistry <- invoke LoadOpenClawPlugins
                      (loadOpenClawPlugins c cfg workspaceDir) ;;
  let plugin_inputs := map plugin_descriptor (plugins pluginRegistry) in
  channels <- invoke ListChannelPlugins (listChannelPlugins c) ;;
  let channel_inputs := map channel_descriptor channels in
  result <- invoke BuildConfigSchema
              (buildConfigSchema c plugin_inputs channel_inputs) ;;
  sendJson 200 (schema result).

Definition handleConfigSchemaHttpRequest (req : IncomingMessage)
  : eff event bool :=
  if (negb (method_is req "GET") && negb (method_is req "HEAD"))%bool
  then ret false
  else
    pathname <- new_URL_pathname (default "/" (url req)) ;;
    if negb (String.eqb pathname SCHEMA_PATH) then ret false
    else if method_is req "HEAD" then
      emit (Res_statusCode 200) ;;;
      emit (Res_setHeader "Content-Type" "application/json; charset=utf-8") ;;;
      emit (Res_end None) ;;;
      ret true
    else
      try_catch load_and_send
        (fun err =>
           sendJson 500
             (Json (JObj (<["error" := JStr (error_text err)]> ∅)))) ;;;
      ret true.

End Handler.

Arguments handleConfigSchemaHttpRequest {U OpenClawConfig} c req.
Arguments load_and_send {OpenClawConfig} c.

(** *** Vocabulary of the properties *)

(** The collaborator calls of a log, and its writes to the response. *)
Definition invocations (l : list event) : list event :=
  List.filter is_invocation l.
Definition writes (l : list event) : list event :=
  List.filter (fun e => negb (is_invocation e)) l.

(** The response of the [HEAD] branch: headers only. *)
Definition head_response : list event :=
  [Res_statusCode 200;
   Res_setHeader "Content-Type" "application/json; charset=utf-8";
   Res_end None].

(** The response written by [sendJson(res, status, body)]. *)
Definition json_response (status : Z) (body : value) : list event :=
  [Res_statusCode status;
   Res_setHeader "Content-Type" "application/json; charset=utf-8";
   Res_end (Some (JSON_stringify body))].

(** [{ error: message }] *)
Definition error_body (message : string) : value :=
  JObj (<["error" := JStr message]> ∅).

(** One of the collaborators called by the [GET] branch throws [err],
    those called before it having returned. *)
Inductive fails {OpenClawConfig : Type} (c : Collaborators OpenClawConfig)
  (err : thrown) : Prop :=
| fails_loadConfig :
    loadConfig c = Throw err -> fails c err
| fails_resolveDefaultAgentId cfg :
    loadConfig c = Ok cfg ->
    resolveDefaultAgentId c cfg = Throw err -> fails c err
| fails_resolveAgentWorkspaceDir cfg agentId :
    loadConfig c = Ok cfg ->
    resolveDefaultAgentId c cfg = Ok agentId ->
    resolveAgentWorkspaceDir c cfg agentId = Throw err -> fails c err
| fails_loadOpenClawPlugins cfg agentId workspaceDir :
    loadConfig c = Ok cfg ->
    resolveDefaultAgentId c cfg = Ok agentId ->
    resolveAgentWorkspaceDir c cfg agentId = Ok workspaceDir ->
    loadOpenClawPlugins c cfg workspaceDir = Throw err -> fails c err
| fails_listChannelPlugins cfg agentId workspaceDir registry :
    loadConfig c = Ok cfg ->
    resolveDefaultAgentId c cfg = Ok agentId ->
    resolveAgentWorkspaceDir c cfg agentId = Ok workspaceDir ->
    loadOpenClawPlugins c cfg workspaceDir = Ok registry ->
    listChannelPlugins c = Throw err -> fails c err
| fails_buildConfigSchema cfg agentId workspaceDir registry channels :
    loadConfig c = Ok cfg ->
    resolveDefaultAgentId c cfg = Ok agentId ->
    resolveAgentWorkspaceDir c cfg agentId = Ok workspaceDir ->
    loadOpenClawPlugins c cfg workspaceDir = Ok registry ->
    listChannelPlugins c = Ok channels ->
    buildConfigSchema c (map plugin_descriptor (plugins registry))
      (map channel_descriptor channels) = Throw err ->
    fails c err.

(** The pathname the handler routes a request on. *)
Definition pathname_of {U : URLConstructor} (req : IncomingMessage)
  : option string :=
  URL_pathname (default "/" (url req)).




(** The [res.end] calls of a log. *)
Definition is_end (e : event) : bool :=
  match e with Res_end _ => true | _ => false end.


End ConfigSchemaHttp.

(** ** Schema composition *)

Module SchemaComposer.
Import Js Eff ConfigSchemaHttp.

(** Modelled from the spec: the [ExtensionContribution] record of the
    data model; [../config/schema.js] is not among the sources. *)
Record ExtensionContribution : Type := {
  id : string;
  displayName : string;
  description : option string;
  schemaFragment : option value;
  uiHints : option value;
}.

(** Modelled from the spec: the entry inserted under the extensions
    namespace for one contribution (section 4.2): the schema fragment, or
    the empty permissive fragment, with the metadata beside it. *)
Record NamespacedEntry : Type := {
  entry_schema : value;
  entry_displayName : string;
  entry_description : option string;
  entry_uiHints : option value;
}.

(** Modelled from the spec: the [ComposedSchema] of the data model, the
    static base properties and one namespaced entry per contribution. *)
Record ComposedSchema : Type := {
  base_properties : object;
  extensions : gmap string NamespacedEntry;
}.

(** Modelled from the spec: what [compose] yields, a composed schema or
    the [CompositionError] of section 7 carrying the colliding id. *)
Inductive composition : Type :=
| Composed (document : ComposedSchema)
| CompositionError (colliding : string).

(** Modelled from the spec: the Descriptor Normalizer of section 4.1.
    Renames are mechanical and a descriptor with an empty id is
    dropped. *)
Definition of_plugin (d : PluginDescriptor.t) : ExtensionContribution :=
  {| id := PluginDescriptor.id d;
     displayName := PluginDescriptor.name d;
     description := PluginDescriptor.description d;
     schemaFragment := PluginDescriptor.configSchema d;
     uiHints := PluginDescriptor.configUiHints d |}.

Definition of_channel (d : ChannelDescriptor.t) : ExtensionContribution :=
  {| id := ChannelDescriptor.id d;
     displayName := ChannelDescriptor.label d;
     description := Some (ChannelDescriptor.description d);
     schemaFragment := ChannelDescriptor.configSchema d;
     uiHints := ChannelDescriptor.configUiHints d |}.

Definition normalize (plugins : list PluginDescriptor.t)
    (channels : list ChannelDescriptor.t) : list ExtensionContribution :=
  filter (fun contribution => id contribution ≠ "")
    (map of_plugin plugins ++ map of_channel channels).

Definition entry_of (contribution : ExtensionContribution)
  : NamespacedEntry :=
  {| entry_schema := default (JObj ∅) (schemaFragment contribution);
     entry_displayName := displayName contribution;
     entry_description := description contribution;
     entry_uiHints := uiHints contribution |}.

(** Modelled from the spec: the Schema Composer of section 4.2.  Each
    contribution is inserted under its id; an id that is already taken
    stops the composition with a [CompositionError] for that id. *)
Fixpoint compose_onto (entries : gmap string NamespacedEntry)
    (contributions : list ExtensionContribution)
  : string + gmap string NamespacedEntry :=
  match contributions with
  | [] => inr entries
  | contribution :: rest =>
      match entries !! id contribution with
      | Some _ => inl (id contribution)
      | None =>
          compose_onto (<[id contribution := entry_of contribution]> entries)
            rest
      end
  end.

Definition compose (base : object)
    (contributions : list ExtensionContribution) : composition :=
  match compose_onto ∅ contributions with
  | inl colliding => CompositionError colliding
  | inr entries =>
      Composed {| base_properties := base; extensions := entries |}
  end.

(** Modelled from the spec: the message of a [CompositionError], which
    names the offending id (section 7). *)
Definition CompositionError_message (colliding : string) : string :=
  "duplicate contribution id: " +:+ colliding.

Section Build.
(** The static base schema, owned by the configuration subsystem. *)
Variable base : object.
(** The JSON document of a composed schema; the spec fixes what the
    document contains, not its layout. *)
Variable document_of : ComposedSchema -> value.

(** Modelled from the spec: [buildConfigSchema] of
    [../config/schema.js] as normalisation followed by composition; a
    [CompositionError] is thrown as an [Error] with its message. *)
Definition buildConfigSchema_spec (plugins : list PluginDescriptor.t)
    (channels : list ChannelDescriptor.t) : result ConfigSchemaResponse :=
  match compose base (normalize plugins channels) with
  | Composed document => Ok {| schema := Json (document_of document) |}
  | CompositionError colliding =>
      Throw (ErrorInstance (CompositionError_message colliding))
  end.
End Build.

(** Modelled from the spec: the collision of section 4.2, two
    contributions at different positions that share the id. *)
Definition collides (contributions : list ExtensionContribution)
    (shared : string) : Prop :=
  exists i j a b,
    i ≠ j /\ contributions !! i = Some a /\ contributions !! j = Some b /\
    id a = shared /\ id b = shared.

End SchemaComposer.

(** ** Sample instances

    Concrete collaborators and a concrete URL parser, for evaluating the
    embedding on explicit requests. *)

Module Samples.
Import Js Eff ConfigSchemaHttp.

(** The prefix of a request target up to its query or fragment. *)
Fixpoint before_query (s : string) : string :=
  match s with
  | EmptyString => EmptyString
  | String a rest =>
      if (Ascii.eqb a "?"%char || Ascii.eqb a "#"%char)%bool then EmptyString
      else String a (before_query rest)
  end.

(** The slashes between the two that open an authority and its host
    are skipped. *)
Fixpoint skip_slashes (s : string) : string :=
  match s with
  | EmptyString => EmptyString
  | String a rest => if Ascii.eqb a "/"%char then skip_slashes rest else s
  end.

(** The host of an authority: what precedes the port and the path. *)
Fixpoint host_of (s : string) : string :=
  match s with
  | EmptyString => EmptyString
  | String a rest =>
      if (Ascii.eqb a "/"%char || Ascii.eqb a ":"%char)%bool then EmptyString
      else String a (host_of rest)
  end.

(** The path that follows the host of an authority. *)
Fixpoint path_after_host (s : string) : string :=
  match s with
  | EmptyString => "/"
  | String a rest =>
      if Ascii.eqb a "/"%char then s else path_after_host rest
  end.

(** The pathname the WHATWG parser computes against the base
    [http://localhost] for a request target in origin form.  A target
    that opens with two slashes carries an authority, and the parser
    fails when the host of the authority is empty, as in ["//"].  Left
    out: dot segments, backslashes, percent-encoding, credentials, the
    validity of a non-empty host or a port, and targets in absolute
    form; the sample is used on none of these. *)
Definition origin_form_pathname (target : string) : option string :=
  match target with
  | String "/"%char (String "/"%char rest) =>
      let authority := before_query (skip_slashes rest) in
      match host_of authority with
      | EmptyString => None
      | _ => Some (path_after_host authority)
      end
  | String "/"%char _ => Some (before_query target)
  | _ => Some ("/" +:+ before_query target)
  end.

#[export] Instance origin_form_URL : URLConstructor := {|
  URL_pathname := origin_form_pathname;
  URL_pathname_root := eq_refl;
  URL_pathname_query := fun search => eq_refl;
|}.

(** Collaborators that all succeed, over an empty registry. *)
Definition quiet_collaborators : Collaborators unit := {|
  loadConfig := Ok tt;
  resolveDefaultAgentId := fun _ => Ok "main";
  resolveAgentWorkspaceDir := fun _ _ => Ok "/workspace";
  loadOpenClawPlugins := fun _ _ => Ok {| plugins := [] |};
  listChannelPlugins := Ok [];
  buildConfigSchema := fun _ _ => Ok {| schema := Json (JObj ∅) |};
|}.

(** The same, with a configuration loader that throws. *)
Definition failing_loadConfig (err : thrown) : Collaborators unit := {|
  loadConfig := Throw err;
  resolveDefaultAgentId := fun _ => Ok "main";
  resolveAgentWorkspaceDir := fun _ _ => Ok "/workspace";
  loadOpenClawPlugins := fun _ _ => Ok {| plugins := [] |};
  listChannelPlugins := Ok [];
  buildConfigSchema := fun _ _ => Ok {| schema := Json (JObj ∅) |};
|}.

(** A gateway that answers every call with [null]. *)
Definition null_gateway (method : string)
    (opts : SkillsTool.GatewayCallOptions) (params : object)
  : result value := Ok JNull.

(** A plugin and a channel adapter that both register as [telegram]. *)
Definition telegram_plugin : PluginRecord.t :=
  {| PluginRecord.id := "telegram";
     PluginRecord.name := "Telegram";
     PluginRecord.description := None;
     PluginRecord.configUiHints := None;
     PluginRecord.configJsonSchema := None |}.

Definition telegram_channel : ChannelPlugin.t :=
  {| ChannelPlugin.id := "telegram";
     ChannelPlugin.meta :=
       {| ChannelPlugin.label := "Telegram";
          ChannelPlugin.blurb := "Telegram bot channel" |};
     ChannelPlugin.configSchema := None |}.

Definition telegram_twice : list SchemaComposer.ExtensionContribution :=
  SchemaComposer.normalize
    [plugin_descriptor telegram_plugin]
    [channel_descriptor telegram_channel].

(** Collaborators that deliver both, with the composer of the spec. *)
Definition colliding_collaborators : Collaborators unit := {|
  loadConfig := Ok tt;
  resolveDefaultAgentId := fun _ => Ok "main";
  resolveAgentWorkspaceDir := fun _ _ => Ok "/workspace";
  loadOpenClawPlugins := fun _ _ => Ok {| plugins := [telegram_plugin] |};
  listChannelPlugins := Ok [telegram_channel];
  buildConfigSchema :=
    SchemaComposer.buildConfigSchema_spec ∅ (fun _ => JObj ∅);
|}.

(** Arguments of the tool, as an agent would pass them. *)
Definition install_args (timeoutMs : value) : object :=
  <["timeoutMs" := timeoutMs]>
    (<["installId" := JStr "brew-ffmpeg"]>
       (<["name" := JStr "ffmpeg"]> (<["action" := JStr "install"]> ∅))).

Definition update_args (env : value) : object :=
  <["env" := env]>
    (<["enabled" := JBool false]>
       (<["skillKey" := JStr "my-skill"]> (<["action" := JStr "update"]> ∅))).

Definition bins_args (timeoutMs : value) : object :=
  <["timeoutMs" := timeoutMs]> (<["action" := JStr "bins"]> ∅).




(** Collaborators whose composer returns a schema that holds a cycle. *)
Definition cyclic_collaborators : Collaborators unit := {|
  loadConfig := Ok tt;
  resolveDefaultAgentId := fun _ => Ok "main";
  resolveAgentWorkspaceDir := fun _ _ => Ok "/workspace";
  loadOpenClawPlugins := fun _ _ => Ok {| plugins := [] |};
  listChannelPlugins := Ok [];
  buildConfigSchema := fun _ _ =>
    Ok {| schema :=
            Unserialisable
              (ErrorInstance "Converting circular structure to JSON") |};
|}.

(** The no-break space U+00A0, two bytes in UTF-8. *)
Definition nbsp : string :=
  String (Ascii.ascii_of_N 194) (String (Ascii.ascii_of_N 160) EmptyString).

(** A [status] invocation for one agent. *)
Definition status_args (agentId : value) : object :=
  <["agentId" := agentId]> (<["action" := JStr "status"]> ∅).

(** A gateway that rejects every call. *)
Definition rejecting_gateway (method : string)
    (opts : SkillsTool.GatewayCallOptions) (params : object)
  : result value := Throw (ErrorInstance "gateway timeout").

End Samples.

(* ===================================================================== *)
(** * Part II: properties                                                 *)
(* ===================================================================== *)

(** ** Laws of the error-and-log monad *)

Module EffFacts.
Import Js Eff.

Lemma bind_lift_Ok {E A B} (a : A) (k : A -> eff E B) :
  bind (lift (Ok a)) k = k a.
Proof. unfold bind, lift. by destruct (k a). Qed.

Lemma bind_lift_Throw {E A B} (err : thrown) (k : A -> eff E B) :
  bind (lift (Throw err)) k = (Throw err, []).
Proof. reflexivity. Qed.

Lemma bind_ret {E A B} (a : A) (k : A -> eff E B) :
  bind (ret a) k = k a.
Proof. apply bind_lift_Ok. Qed.

Lemma bind_emit {E B} (e : E) (k : unit -> eff E B) :
  bind (emit e) k = (outcome (k tt), e :: log (k tt)).
Proof. unfold bind, emit, outcome, log. by destruct (k tt). Qed.

Lemma bind_throw {E A B} (err : thrown) (k : A -> eff E B) :
  bind (throw err) k = (Throw err, []).
Proof. reflexivity. Qed.

Lemma bind_assoc {E A B C} (m : eff E A) (k : A -> eff E B)
    (h : B -> eff E C) :
  bind (bind m k) h = bind m (fun a => bind (k a) h).
Proof.
  destruct m as [[a|err] l]; simpl; [|done].
  destruct (k a) as [[b|err] l']; simpl; [|done].
  destruct (h b) as [r l'']. by rewrite app_assoc.
Qed.

End EffFacts.

(** ** Facts about JavaScript values *)

Module JsFacts.
Import Js.

Lemma typeof_number v : typeof v = "number" <-> exists n, v = JNum n.
Proof.
  split; [|by intros [n ->]].
  destruct v; try discriminate. eauto.
Qed.

Lemma typeof_boolean v : typeof v = "boolean" <-> exists b, v = JBool b.
Proof.
  split; [|by intros [b ->]].
  destruct v; try discriminate. eauto.
Qed.

Lemma typeof_string v : typeof v = "string" <-> exists s, v = JStr s.
Proof.
  split; [|by intros [s ->]].
  destruct v; try discriminate. eauto.
Qed.

(** The guard of line 86 holds exactly for objects that are not arrays
    (and not [null]). *)
Lemma plain_object_guard v :
  (truthy v && String.eqb (typeof v) "object"
     && negb (Array_isArray v))%bool = true
  <-> exists fields, v = JObj fields.
Proof.
  split; [|by intros [fields ->]].
  destruct v as [| |b|n|s|items|fields]; simpl;
    rewrite ?andb_false_r, ?andb_false_l; try discriminate; eauto.
Qed.

Lemma Math_max_1000_floor (q : Q) :
  Math_max (Finite 1000) (Math_floor (Finite q))
  = Finite (inject_Z (Z.max 1000 (Qfloor q))).
Proof.
  simpl. f_equal.
  destruct (Qle_bool 1000 (inject_Z (Qfloor q))) eqn:Hle.
  - apply Qle_bool_iff in Hle. unfold Qle in Hle. simpl in Hle.
    f_equal. lia.
  - assert (~ (1000 <= Qfloor q)) as Hlt.
    { intros H. assert (Qle_bool 1000 (inject_Z (Qfloor q)) = true) as Ht.
      { apply Qle_bool_iff. unfold Qle. simpl. lia. }
      congruence. }
    replace (Z.max 1000 (Qfloor q)) with 1000 by lia. reflexivity.
Qed.

Lemma truthy_at_least_1000 (z : Z) :
  truthy (JNum (Finite (inject_Z (Z.max 1000 z)))) = true.
Proof.
  simpl. apply negb_true_iff.
  destruct (Qeq_bool (inject_Z (Z.max 1000 z)) 0) eqn:Hc; [|done].
  apply Qeq_bool_iff in Hc. unfold Qeq in Hc. simpl in Hc. lia.
Qed.

Lemma trimEnd_whitespace_only s :
  whitespace_only s = true -> trimEnd s = "".
Proof.
  destruct s as [|a rest]; [done|]. intros H. cbn [trimEnd]. by rewrite H.
Qed.




End JsFacts.

(** ** Properties of the skills tool *)

Module SkillsToolProps.
Import Js Eff EffFacts JsFacts SkillsTool.

Lemma readStringParam_optional params key options :
  opt_required options = false ->
  exists r, readStringParam params key options = Ok r.
Proof.
  intros Hopt. unfold readStringParam. rewrite Hopt.
  destruct (get params key); eauto.
  destruct (String.eqb _ ""); eauto.
Qed.





Section Execute.
Variable callGatewayTool :
  string -> GatewayCallOptions -> object -> result value.
Variable AgentToolResult : Type.
Variable jsonResult : value -> AgentToolResult.

Abbreviation run := (execute callGatewayTool jsonResult).
Abbreviation await := (await_callGatewayTool callGatewayTool).

Lemma await_then_jsonResult method opts payload :
  bind (await method opts payload) (fun r => ret (jsonResult r))
  = (settle jsonResult (callGatewayTool method opts payload),
     [GatewayCall method opts payload]).
Proof.
  unfold await_callGatewayTool. rewrite bind_assoc, bind_emit.
  unfold outcome, log, bind, lift, ret, settle.
  by destruct (callGatewayTool method opts payload).
Qed.

(** Read the action and the two optional gateway parameters, which
    never fail, and reduce the dispatch on a known action. *)
Ltac enter params Haction url token :=
  unfold execute;
  rewrite Haction, bind_lift_Ok;
  destruct (readStringParam_optional params "gatewayUrl" untrimmed eq_refl)
    as [url ->];
  destruct (readStringParam_optional params "gatewayToken" untrimmed
              eq_refl) as [token ->];
  rewrite !bind_lift_Ok; fold (options_of params url token).

Lemma lookup_if_insert (c : bool) (k k' : string) (v : value) (m : object) :
  (if c then <[k:=v]> m else m) !! k'
  = if (c && String.eqb k k')%bool then Some v else m !! k'.
Proof.
  destruct c; simpl; [|done].
  destruct (String.eqb_spec k k') as [->|Hne].
  - by rewrite lookup_insert_eq.
  - by rewrite lookup_insert_ne.
Qed.

(** C2: an [install] whose required fields are present issues one
    [skills.install] call; its payload carries [timeoutMs] floored and
    raised to at least 1000 when the caller's [timeoutMs] is a finite
    number, and has no [timeoutMs] field otherwise. *)
Theorem install_timeoutMs_payload params name installId :
  action_is params "install" ->
  readStringParam params "name" required = Ok (Some name) ->
  readStringParam params "installId" required = Ok (Some installId) ->
  exists opts payload,
    log (run params) = [GatewayCall "skills.install" opts payload] /\
    payload !! "name" = Some (JStr name) /\
    payload !! "installId" = Some (JStr installId) /\
    payload !! "timeoutMs" =
      match get params "timeoutMs" with
      | JNum (Finite q) =>
          Some (JNum (Finite (inject_Z (Z.max 1000 (Qfloor q)))))
      | _ => None
      end.
Proof.
  intros Haction Hname HinstallId.
  enter params Haction url token. cbn [default String.eqb Ascii.eqb Bool.eqb].
  rewrite Hname, HinstallId, !bind_lift_Ok, await_then_jsonResult.
  eexists _, _. split; [reflexivity|]. unfold spread, of_option.
  destruct (get params "timeoutMs") as [| | |[| |q]| | |];
    cbn [Number_isFinite];
    rewrite ?Math_max_1000_floor, ?truthy_at_least_1000; cbn [truthy];
    by simplify_map_eq.
Qed.

(** C3: an [update] whose [skillKey] is present issues one [skills.update]
    call whose payload holds [enabled] exactly when the argument is a
    boolean, [apiKey] exactly when it is a string and [env] exactly when it
    is an object that is not an array; each included value is the
    argument itself. *)
Theorem update_payload_fields params skillKey :
  action_is params "update" ->
  readStringParam params "skillKey" required = Ok (Some skillKey) ->
  exists opts payload,
    log (run params) = [GatewayCall "skills.update" opts payload] /\
    payload !! "skillKey" = Some (JStr skillKey) /\
    payload !! "enabled" =
      match get params "enabled" with
      | JBool b => Some (JBool b)
      | _ => None
      end /\
    payload !! "apiKey" =
      match get params "apiKey" with
      | JStr s => Some (JStr s)
      | _ => None
      end /\
    payload !! "env" =
      match get params "env" with
      | JObj fields => Some (JObj fields)
      | _ => None
      end.
Proof.
  intros Haction HskillKey.
  enter params Haction url token. cbn [default String.eqb Ascii.eqb Bool.eqb].
  rewrite HskillKey, !bind_lift_Ok, await_then_jsonResult.
  eexists _, _. split; [reflexivity|]. unfold of_option.
  rewrite !lookup_if_insert.
  cbn [String.eqb Ascii.eqb Bool.eqb]. rewrite ?andb_false_r, ?andb_true_r.
  repeat split.
  - destruct (get params "enabled"); by simplify_map_eq.
  - destruct (get params "apiKey"); by simplify_map_eq.
  - destruct (get params "env") as [| |b|[|neg|q]|s|items|fields];
      cbn [truthy typeof Array_isArray String.eqb Ascii.eqb Bool.eqb andb negb];
      rewrite ?andb_false_r; by simplify_map_eq.
Qed.

(** C1 (as the code has it): an [update] whose [env] is an array is not
    refused.  With [skillKey] present it issues the [skills.update] call
    all the same, with a payload that has no [env] field, and settles to
    what the gateway answers. *)
Theorem update_env_array_omitted params skillKey items :
  action_is params "update" ->
  readStringParam params "skillKey" required = Ok (Some skillKey) ->
  get params "env" = JArr items ->
  exists opts payload,
    run params
    = (settle jsonResult (callGatewayTool "skills.update" opts payload),
       [GatewayCall "skills.update" opts payload]) /\
    payload !! "skillKey" = Some (JStr skillKey) /\
    payload !! "env" = None.
Proof.
  intros Haction HskillKey Henv.
  enter params Haction url token. cbn [default String.eqb Ascii.eqb Bool.eqb].
  rewrite HskillKey, !bind_lift_Ok, await_then_jsonResult.
  eexists _, _. split; [reflexivity|]. unfold of_option.
  rewrite !lookup_if_insert, Henv.
  cbn [String.eqb Ascii.eqb Bool.eqb truthy typeof Array_isArray negb andb].
  rewrite ?andb_false_r. by simplify_map_eq.
Qed.

(** C6 (as the code has it): every gateway call of an invocation carries
    as [timeoutMs] the caller's [timeoutMs] whenever that is of type
    number, whatever the number, and 60000 otherwise. *)
Theorem gateway_options_timeoutMs params call :
  call ∈ log (run params) ->
  timeoutMs (call_opts call)
  = match get params "timeoutMs" with
    | JNum n => n
    | _ => Finite 60000
    end.
Proof.
  unfold execute.
  destruct (readStringParam params "action" required) as [action|err];
    [rewrite bind_lift_Ok | by intros ?%elem_of_nil].
  destruct (readStringParam_optional params "gatewayUrl" untrimmed eq_refl)
    as [url ->].
  destruct (readStringParam_optional params "gatewayToken" untrimmed eq_refl)
    as [token ->].
  rewrite !bind_lift_Ok. fold (options_of params url token).
  repeat match goal with
         | |- context [if String.eqb ?a ?b then _ else _] =>
             destruct (String.eqb a b)
         end;
    repeat match goal with
           | |- context [lift (readStringParam ?p ?k ?o)] =>
               destruct (readStringParam p k o);
               rewrite ?bind_lift_Ok, ?bind_lift_Throw
           end;
    rewrite ?await_then_jsonResult; cbn [log snd throw];
    first [ by intros ?%elem_of_nil
          | by intros ->%list_elem_of_singleton ].
Qed.


End Execute.

(** *** The properties on explicit invocations *)

Import Samples.

Abbreviation run_sample := (execute null_gateway (fun v : value => v)).

Lemma install_timeoutMs_payload_witness :
  exists opts payload,
    log (run_sample (install_args (JNum (Finite (25007 # 10)))))
    = [GatewayCall "skills.install" opts payload] /\
    payload !! "name" = Some (JStr "ffmpeg") /\
    payload !! "installId" = Some (JStr "brew-ffmpeg") /\
    payload !! "timeoutMs" = Some (JNum (Finite 2500)).
Proof.
  apply (install_timeoutMs_payload null_gateway value (fun v => v)
           (install_args (JNum (Finite (25007 # 10))))
           "ffmpeg" "brew-ffmpeg"); reflexivity.
Defined.

(** [timeoutMs: 5] is sent as 1000. *)
Example install_timeoutMs_5 :
  exists opts payload,
    log (run_sample (install_args (JNum (Finite 5))))
    = [GatewayCall "skills.install" opts payload] /\
    payload !! "timeoutMs" = Some (JNum (Finite 1000)).
Proof. eexists _, _. split; reflexivity. Qed.

(** [timeoutMs: "x"] leaves the field out of the payload. *)
Example install_timeoutMs_string :
  exists opts payload,
    log (run_sample (install_args (JStr "x")))
    = [GatewayCall "skills.install" opts payload] /\
    payload !! "timeoutMs" = None.
Proof. eexists _, _. split; reflexivity. Qed.

(** A non-finite [timeoutMs] leaves the field out as well. *)
Example install_timeoutMs_NaN :
  exists opts payload,
    log (run_sample (install_args (JNum NaN)))
    = [GatewayCall "skills.install" opts payload] /\
    payload !! "timeoutMs" = None.
Proof. eexists _, _. split; reflexivity. Qed.

Lemma update_payload_fields_witness :
  exists opts payload,
    log (run_sample (update_args (JObj (<["MY_VAR" := JStr ""]> ∅))))
    = [GatewayCall "skills.update" opts payload] /\
    payload !! "skillKey" = Some (JStr "my-skill") /\
    payload !! "enabled" = Some (JBool false) /\
    payload !! "apiKey" = None /\
    payload !! "env" = Some (JObj (<["MY_VAR" := JStr ""]> ∅)).
Proof.
  apply (update_payload_fields null_gateway value (fun v => v)
           (update_args (JObj (<["MY_VAR" := JStr ""]> ∅))) "my-skill");
    reflexivity.
Defined.

(** C1, refuted as stated: [update] with [env: []] is not refused; the
    [skills.update] call is made, without an [env] field, and the
    invocation settles to the gateway's answer. *)
Lemma update_env_array_calls_gateway :
  run_sample (update_args (JArr []))
  = (Ok JNull,
     [GatewayCall "skills.update"
        {| gatewayUrl := None; gatewayToken := None;
           timeoutMs := Finite 60000 |}
        (<["enabled" := JBool false]>
           (<["skillKey" := JStr "my-skill"]> ∅))]).
Proof. vm_compute. reflexivity. Qed.

Lemma update_env_array_omitted_witness :
  exists opts payload,
    run_sample (update_args (JArr []))
    = (settle (fun v : value => v) (null_gateway "skills.update" opts payload),
       [GatewayCall "skills.update" opts payload]) /\
    payload !! "skillKey" = Some (JStr "my-skill") /\
    payload !! "env" = None.
Proof.
  apply (update_env_array_omitted null_gateway value (fun v => v)
           (update_args (JArr [])) "my-skill" []); reflexivity.
Defined.

(** C6, refuted as stated: a [timeoutMs] of [NaN] reaches the call
    options, and so does a negative one. *)
Lemma gateway_options_timeoutMs_unchecked :
  (exists call,
     log (run_sample (bins_args (JNum NaN))) = [call] /\
     timeoutMs (call_opts call) = NaN /\
     positive_finite (timeoutMs (call_opts call)) = false) /\
  (exists call,
     log (run_sample (bins_args (JNum (Finite (-5))))) = [call] /\
     timeoutMs (call_opts call) = Finite (-5) /\
     positive_finite (timeoutMs (call_opts call)) = false).
Proof. split; eexists; repeat split; reflexivity. Qed.

Lemma gateway_options_timeoutMs_witness :
  timeoutMs
    (call_opts
       (GatewayCall "skills.bins"
          {| gatewayUrl := None; gatewayToken := None;
             timeoutMs := Infinity false |} ∅))
  = Infinity false.
Proof.
  apply (gateway_options_timeoutMs null_gateway value (fun v => v)
           (bins_args (JNum (Infinity false)))).
  vm_compute. apply list_elem_of_here.
Defined.


(** The action an invocation dispatches on is the [action] argument
    when that is a string, with its surrounding white space trimmed. *)
Lemma action_is_trimmed params action :
  action_is params action <->
  exists raw,
    get params "action" = JStr raw /\ trim raw = action /\ action ≠ "".
Proof.
  unfold action_is, readStringParam. split.
  - destruct (get params "action") as [| | | |raw| |]; simpl; try discriminate.
    destruct (String.eqb (trim raw) "") eqn:He; [discriminate|].
    intros [= <-]. exists raw. by apply String.eqb_neq in He.
  - intros (raw & -> & <- & Hne). simpl.
    apply String.eqb_neq in Hne. by rewrite Hne.
Qed.


(** White space beyond ASCII makes a field blank as well: a name that is
    a no-break space is refused before the install id is looked at. *)
Example install_with_nbsp_name_refused :
  run_sample
    (<["name" := JStr nbsp]> (<["installId" := JStr ""]>
       (<["action" := JStr "install"]> ∅)))
  = (Throw (ParameterError "name"), []).
Proof. vm_compute. reflexivity. Qed.

(** A blank required field is refused with its parameter error. *)
Example install_without_installId_refused :
  run_sample
    (<["name" := JStr "ffmpeg"]> (<["installId" := JStr "  "]>
       (<["action" := JStr "install"]> ∅)))
  = (Throw (ParameterError "installId"), []).
Proof. vm_compute. reflexivity. Qed.

End SkillsToolProps.

(** ** Properties of the HTTP handler *)

Module ConfigSchemaHttpProps.
Import Js Eff EffFacts ConfigSchemaHttp.

Section Handler.
Context {U : URLConstructor}.
Context {OpenClawConfig : Type} (c : Collaborators OpenClawConfig).

Abbreviation handle := (handleConfigSchemaHttpRequest c).

Lemma method_is_Some req m m' :
  method req = Some m -> method_is req m' = String.eqb m m'.
Proof. unfold method_is. by intros ->. Qed.

Lemma method_is_false req m :
  method req ≠ Some m -> method_is req m = false.
Proof.
  unfold method_is. destruct (method req) as [s|]; [|done].
  intros Hne. apply String.eqb_neq. congruence.
Qed.

(** *** The phases of the handler *)

Lemma handle_other_method req :
  method req ≠ Some "GET" -> method req ≠ Some "HEAD" ->
  handle req = (Ok false, []).
Proof.
  intros HG HH. unfold handleConfigSchemaHttpRequest.
  by rewrite (method_is_false _ _ HG), (method_is_false _ _ HH).
Qed.

Lemma handle_other_pathname req pathname :
  pathname_of req = Some pathname -> pathname ≠ SCHEMA_PATH ->
  handle req = (Ok false, []).
Proof.
  unfold pathname_of. intros Hurl Hne. unfold handleConfigSchemaHttpRequest.
  destruct (negb (method_is req "GET") && negb (method_is req "HEAD"))%bool;
    [done|].
  unfold new_URL_pathname. rewrite Hurl, bind_ret.
  apply String.eqb_neq in Hne. by rewrite Hne.
Qed.

Lemma handle_HEAD req :
  method req = Some "HEAD" -> pathname_of req = Some SCHEMA_PATH ->
  handle req = (Ok true, head_response).
Proof.
  unfold pathname_of. intros Hmethod Hurl. unfold handleConfigSchemaHttpRequest.
  rewrite !(method_is_Some _ _ _ Hmethod). simpl (_ && _)%bool. cbv iota.
  unfold new_URL_pathname. rewrite Hurl, bind_ret.
  reflexivity.
Qed.

Lemma handle_GET req :
  method req = Some "GET" -> pathname_of req = Some SCHEMA_PATH ->
  handle req
  = bind (try_catch (load_and_send c)
            (fun err => sendJson 500 (Json (error_body (error_text err)))))
      (fun _ => ret true).
Proof.
  unfold pathname_of. intros Hmethod Hurl. unfold handleConfigSchemaHttpRequest.
  rewrite !(method_is_Some _ _ _ Hmethod). simpl (_ && _)%bool. cbv iota.
  unfold new_URL_pathname. rewrite Hurl, bind_ret.
  reflexivity.
Qed.


(** *** The [try] block *)

Lemma bind_invoke_Ok {A B} k (r : result A) a (rest : A -> eff event B) :
  r = Ok a ->
  bind (invoke k r) rest = (outcome (rest a), Invoked k :: log (rest a)).
Proof.
  intros ->. unfold invoke. rewrite bind_assoc, bind_emit.
  by rewrite bind_lift_Ok.
Qed.

Lemma bind_invoke_Throw {A B} k (r : result A) err (rest : A -> eff event B) :
  r = Throw err ->
  bind (invoke k r) rest = (Throw err, [Invoked k]).
Proof.
  intros ->. unfold invoke. by rewrite bind_assoc, bind_emit.
Qed.

(** A failing collaborator makes the [try] block throw its error, after
    collaborator calls only. *)
Lemma load_and_send_fails err :
  fails c err ->
  exists calls,
    load_and_send c = (Throw err, calls) /\ writes calls = [] /\
    head calls = Some (Invoked LoadConfig).
Proof.
  intros Hfails. unfold load_and_send.
  destruct Hfails as [H1 | cfg H1 H2 | cfg agentId H1 H2 H3
    | cfg agentId ws H1 H2 H3 H4 | cfg agentId ws registry H1 H2 H3 H4 H5
    | cfg agentId ws registry channels H1 H2 H3 H4 H5 H6].
  all: repeat first
         [ erewrite bind_invoke_Throw by eassumption
         | erewrite bind_invoke_Ok by eassumption; cbn [outcome log fst snd] ].
  all: eexists; split; [reflexivity|]; split; reflexivity.
Qed.

(** The [catch] clause answers and does not throw, so the [GET] branch
    always returns. *)
Lemma try_then_return (m : eff event unit) :
  outcome
    (bind (try_catch m
             (fun err => sendJson 500 (Json (error_body (error_text err)))))
       (fun _ => ret true))
  = Ok true.
Proof. by destruct m as [[[]|err] l]. Qed.

Lemma handle_GET_fails req err :
  method req = Some "GET" -> pathname_of req = Some SCHEMA_PATH ->
  fails c err ->
  outcome (handle req) = Ok true /\
  writes (log (handle req)) = json_response 500 (error_body (error_text err)) /\
  head (log (handle req)) = Some (Invoked LoadConfig).
Proof.
  intros Hmethod Hurl Hfails. rewrite (handle_GET _ Hmethod Hurl).
  destruct (load_and_send_fails err Hfails) as (calls & -> & Hwrites & Hhead).
  cbn [try_catch sendJson stringify bind emit ret lift outcome log fst snd
         app].
  split; [done|]. rewrite ?app_nil_r. split.
  - unfold writes in *. rewrite List.filter_app, Hwrites. reflexivity.
  - by destruct calls.
Qed.

Lemma load_and_send_starts :
  exists rest, log (load_and_send c) = Invoked LoadConfig :: rest.
Proof.
  unfold load_and_send. destruct (loadConfig c) as [cfg|err] eqn:Hload.
  - erewrite bind_invoke_Ok by reflexivity. eauto.
  - erewrite bind_invoke_Throw by reflexivity. eauto.
Qed.

Lemma handle_GET_starts req :
  method req = Some "GET" -> pathname_of req = Some SCHEMA_PATH ->
  head (log (handle req)) = Some (Invoked LoadConfig).
Proof.
  intros Hmethod Hurl. rewrite (handle_GET _ Hmethod Hurl).
  destruct load_and_send_starts as [rest Hlog].
  destruct (load_and_send c) as [[[]|err] calls]; cbn [log snd] in Hlog;
    subst calls; reflexivity.
Qed.

(** What the [try]/[catch] of lines 37-69 achieves: a request whose URL
    the [URL] constructor accepts never makes the handler throw; and on a
    [GET] of the schema path, a failure of configuration load, workspace
    resolution, plugin discovery, channel listing or schema composition
    is answered with status 500 and the body [{ error: message }], the
    handler returning [true]. *)
Theorem load_failure_becomes_500 req pathname :
  pathname_of req = Some pathname ->
  (exists handled, outcome (handle req) = Ok handled) /\
  (forall err,
     method req = Some "GET" -> pathname = SCHEMA_PATH -> fails c err ->
     outcome (handle req) = Ok true /\
     writes (log (handle req))
     = [Res_statusCode 500;
        Res_setHeader "Content-Type" "application/json; charset=utf-8";
        Res_end (Some (JSON_stringify
                         (JObj (<["error" := JStr (error_text err)]> ∅))))]).
Proof.
  intros Hurl. split.
  - destruct (decide (pathname = SCHEMA_PATH)) as [->|Hne];
      [|rewrite (handle_other_pathname _ _ Hurl Hne); eauto].
    destruct (decide (method req = Some "HEAD")) as [HH|HH];
      [rewrite (handle_HEAD _ HH Hurl); eauto|].
    destruct (decide (method req = Some "GET")) as [HG|HG];
      [|rewrite (handle_other_method _ HG HH); eauto].
    rewrite (handle_GET _ HG Hurl), try_then_return. eauto.
  - intros err Hmethod -> Hfails.
    destruct (handle_GET_fails _ err Hmethod Hurl Hfails) as (? & ? & _).
    done.
Qed.

(** C8: a [HEAD] request for the schema path is answered with status 200,
    the JSON content type and no body, and is reported as handled,
    whatever the collaborators are. *)
Theorem head_schema_request req :
  method req = Some "HEAD" ->
  pathname_of req = Some SCHEMA_PATH ->
  handle req
  = (Ok true,
     [Res_statusCode 200;
      Res_setHeader "Content-Type" "application/json; charset=utf-8";
      Res_end None]).
Proof.
  unfold pathname_of. intros Hmethod Hurl. unfold handleConfigSchemaHttpRequest.
  unfold method_is. rewrite Hmethod. simpl (_ && _)%bool. cbv iota.
  unfold new_URL_pathname. rewrite Hurl, bind_ret.
  replace (String.eqb SCHEMA_PATH SCHEMA_PATH) with true by reflexivity.
  cbn [negb]. rewrite !bind_emit. reflexivity.
Qed.

(** C9: a request whose method is neither [GET] nor [HEAD], or whose
    pathname is not the schema path, is not handled and nothing is
    written; a request without URL is routed as ["/"] and is not handled;
    a query string after the schema path does not prevent handling; and
    two requests with the same method and pathname are treated alike. *)
Theorem unmatched_request_not_handled req :
  (method req ≠ Some "GET" -> method req ≠ Some "HEAD" ->
   handle req = (Ok false, [])) /\
  (forall pathname,
     pathname_of req = Some pathname -> pathname ≠ SCHEMA_PATH ->
     handle req = (Ok false, [])) /\
  (url req = None -> handle req = (Ok false, [])) /\
  (forall search,
     method req = Some "GET" \/ method req = Some "HEAD" ->
     url req = Some (SCHEMA_PATH +:+ "?" +:+ search) ->
     outcome (handle req) = Ok true) /\
  (forall req',
     method req' = method req -> pathname_of req' = pathname_of req ->
     handle req' = handle req).
Proof.
  repeat split.
  - apply handle_other_method.
  - apply handle_other_pathname.
  - intros Hurl. apply (handle_other_pathname _ "/"); [|done].
    unfold pathname_of. rewrite Hurl. apply URL_pathname_root.
  - intros search Hmethod Hurl.
    assert (pathname_of req = Some SCHEMA_PATH) as Hpath.
    { unfold pathname_of. rewrite Hurl. apply URL_pathname_query. }
    destruct Hmethod as [HG|HH].
    + by rewrite (handle_GET _ HG Hpath), try_then_return.
    + by rewrite (handle_HEAD _ HH Hpath).
  - intros req' Hmethod Hpath.
    unfold handleConfigSchemaHttpRequest, method_is, new_URL_pathname.
    unfold pathname_of in Hpath. by rewrite Hmethod, Hpath.
Qed.

(** C10: the [HEAD] branch calls no collaborator: a [HEAD] of the schema
    path is answered 200 with an empty log of collaborator calls, while
    the [GET] of the same URL starts by loading the configuration and is
    answered 500 when a collaborator fails. *)
Theorem head_invokes_no_collaborator target :
  URL_pathname (default "/" target) = Some SCHEMA_PATH ->
  let head_request := {| method := Some "HEAD"; url := target |} in
  let get_request := {| method := Some "GET"; url := target |} in
  invocations (log (handle head_request)) = [] /\
  outcome (handle head_request) = Ok true /\
  writes (log (handle head_request)) = head_response /\
  head (log (handle get_request)) = Some (Invoked LoadConfig) /\
  (forall err,
     fails c err ->
     writes (log (handle get_request))
     = json_response 500 (error_body (error_text err))).
Proof.
  intros Hurl head_request get_request.
  rewrite (handle_HEAD head_request eq_refl Hurl).
  repeat split.
  - by apply handle_GET_starts.
  - intros err Hfails.
    by destruct (handle_GET_fails get_request err eq_refl Hurl Hfails)
      as (_ & ? & _).
Qed.

End Handler.

(** *** The properties on explicit requests *)

Import Samples.

(** C5: the handler is to convert every failure into a 500 response, for
    any incoming request.  It does not for the request target ["//"]:
    the target has an empty host, the [URL] constructor of line 25 throws
    ahead of the [try] block, and the exception leaves the handler with
    nothing written to the response. *)
Lemma invalid_URL_escapes :
  handleConfigSchemaHttpRequest quiet_collaborators
    {| method := Some "GET"; url := Some "//" |}
  = (Throw (ErrorInstance "Invalid URL"), []).
Proof. reflexivity. Qed.

Lemma load_failure_becomes_500_witness :
  let req := {| method := Some "GET"; url := Some "/openclaw.schema.json" |} in
  let c := failing_loadConfig (ErrorInstance "config file is unreadable") in
  (exists handled, outcome (handleConfigSchemaHttpRequest c req) = Ok handled) /\
  outcome (handleConfigSchemaHttpRequest c req) = Ok true /\
  writes (log (handleConfigSchemaHttpRequest c req))
  = [Res_statusCode 500;
     Res_setHeader "Content-Type" "application/json; charset=utf-8";
     Res_end (Some (JSON_stringify
                      (JObj (<["error" := JStr "config file is unreadable"]> ∅))))].
Proof.
  intros req c.
  destruct (load_failure_becomes_500 (U := origin_form_URL) c req SCHEMA_PATH)
    as [Hreturns Hfails]; [reflexivity|].
  split; [exact Hreturns|].
  apply (Hfails (ErrorInstance "config file is unreadable"));
    [reflexivity | reflexivity |].
  apply fails_loadConfig. reflexivity.
Defined.

Lemma head_schema_request_witness :
  handleConfigSchemaHttpRequest
    (failing_loadConfig (ThrownString "boom"))
    {| method := Some "HEAD"; url := Some "/openclaw.schema.json" |}
  = (Ok true,
     [Res_statusCode 200;
      Res_setHeader "Content-Type" "application/json; charset=utf-8";
      Res_end None]).
Proof.
  apply (head_schema_request (failing_loadConfig (ThrownString "boom"))
           {| method := Some "HEAD"; url := Some "/openclaw.schema.json" |});
    reflexivity.
Defined.

Lemma unmatched_request_not_handled_witness :
  handleConfigSchemaHttpRequest quiet_collaborators
    {| method := Some "POST"; url := Some "/openclaw.schema.json" |}
  = (Ok false, []) /\
  handleConfigSchemaHttpRequest quiet_collaborators
    {| method := Some "GET"; url := Some "/health" |}
  = (Ok false, []) /\
  handleConfigSchemaHttpRequest quiet_collaborators
    {| method := Some "GET"; url := None |}
  = (Ok false, []) /\
  outcome
    (handleConfigSchemaHttpRequest quiet_collaborators
       {| method := Some "GET"; url := Some "/openclaw.schema.json?v=2" |})
  = Ok true.
Proof.
  split; [|split; [|split]].
  - apply (proj1 (unmatched_request_not_handled (U := origin_form_URL)
                    quiet_collaborators
                    {| method := Some "POST";
                       url := Some "/openclaw.schema.json" |}));
      discriminate.
  - apply (proj1 (proj2 (unmatched_request_not_handled (U := origin_form_URL)
                           quiet_collaborators
                           {| method := Some "GET"; url := Some "/health" |}))
             "/health"); [reflexivity | discriminate].
  - apply (proj1 (proj2 (proj2 (unmatched_request_not_handled
                                  (U := origin_form_URL) quiet_collaborators
                                  {| method := Some "GET"; url := None |})))).
    reflexivity.
  - apply (proj1 (proj2 (proj2 (proj2 (unmatched_request_not_handled
                                         (U := origin_form_URL)
                                         quiet_collaborators
                                         {| method := Some "GET";
                                            url := Some "/openclaw.schema.json?v=2" |}))))
             "v=2"); [by left | reflexivity].
Defined.

Lemma head_invokes_no_collaborator_witness :
  let c := failing_loadConfig (ErrorInstance "config file is unreadable") in
  let head_request :=
    {| method := Some "HEAD"; url := Some "/openclaw.schema.json" |} in
  let get_request :=
    {| method := Some "GET"; url := Some "/openclaw.schema.json" |} in
  invocations (log (handleConfigSchemaHttpRequest c head_request)) = [] /\
  outcome (handleConfigSchemaHttpRequest c head_request) = Ok true /\
  writes (log (handleConfigSchemaHttpRequest c head_request)) = head_response /\
  head (log (handleConfigSchemaHttpRequest c get_request))
  = Some (Invoked LoadConfig) /\
  writes (log (handleConfigSchemaHttpRequest c get_request))
  = json_response 500 (error_body "config file is unreadable").
Proof.
  intros c head_request get_request.
  destruct (head_invokes_no_collaborator (U := origin_form_URL) c
              (Some "/openclaw.schema.json")) as (H1 & H2 & H3 & H4 & H5);
    [reflexivity|].
  split; [exact H1|]. split; [exact H2|]. split; [exact H3|].
  split; [exact H4|].
  apply (H5 (ErrorInstance "config file is unreadable")).
  apply fails_loadConfig. reflexivity.
Defined.

End ConfigSchemaHttpProps.

(** ** Properties of schema composition *)

Module SchemaComposerProps.
Import Js Eff EffFacts ConfigSchemaHttp ConfigSchemaHttpProps SchemaComposer.

(** A composition that stops names the id of a contribution that meets
    an id already inserted, or an earlier contribution of the list. *)
Lemma compose_onto_inl contributions :
  forall entries colliding,
    compose_onto entries contributions = inl colliding ->
    exists j b,
      contributions !! j = Some b /\ id b = colliding /\
      (is_Some (entries !! colliding) \/
       exists i a, (i < j)%nat /\ contributions !! i = Some a /\ id a = colliding).
Proof.
  induction contributions as [|c rest IH]; intros entries colliding; simpl;
    [done|].
  destruct (entries !! id c) as [e|] eqn:Hc.
  - intros [= <-]. exists 0%nat, c. rewrite Hc. eauto.
  - intros (j & b & Hb & Hid & Hprev)%IH.
    exists (S j), b. split; [done|]. split; [done|].
    destruct Hprev as [Hin | (i & a & Hlt & Ha & Hida)].
    + destruct (decide (id c = colliding)) as [Heq|Hne].
      * right. exists 0%nat, c. split; [lia|]. done.
      * left. by rewrite lookup_insert_ne in Hin.
    + right. exists (S i), a. split; [lia|]. done.
Qed.

(** A composition that completes met pairwise distinct ids. *)
Lemma compose_onto_inr contributions :
  forall entries composed,
    compose_onto entries contributions = inr composed ->
    NoDup (id <$> contributions) /\
    forall c, c ∈ contributions -> entries !! id c = None.
Proof.
  induction contributions as [|c rest IH]; intros entries composed; simpl.
  - intros _. split; [constructor|]. by intros c ?%elem_of_nil.
  - destruct (entries !! id c) as [e|] eqn:Hc; [done|].
    intros [Hnodup Hfresh]%IH. split.
    + constructor; [|done].
      intros (c' & Hid & Hin)%list_elem_of_fmap.
      specialize (Hfresh c' Hin). rewrite <- Hid in Hfresh.
      by rewrite lookup_insert_eq in Hfresh.
    + intros c' [->|Hin]%elem_of_cons; [done|].
      specialize (Hfresh c' Hin).
      destruct (decide (id c = id c')) as [Heq|Hne].
      * rewrite Heq in Hfresh. by rewrite lookup_insert_eq in Hfresh.
      * by rewrite lookup_insert_ne in Hfresh.
Qed.

Lemma collides_not_NoDup contributions shared :
  collides contributions shared -> ~ NoDup (id <$> contributions).
Proof.
  intros (i & j & a & b & Hne & Ha & Hb & Hida & Hidb) Hnodup.
  apply Hne. apply (NoDup_lookup _ i j shared Hnodup).
  - by rewrite list_lookup_fmap, Ha; simpl; rewrite Hida.
  - by rewrite list_lookup_fmap, Hb; simpl; rewrite Hidb.
Qed.

Lemma compose_collision base contributions shared :
  collides contributions shared ->
  exists colliding,
    collides contributions colliding /\
    compose base contributions = CompositionError colliding.
Proof.
  intros Hshared. unfold compose.
  destruct (compose_onto ∅ contributions) as [colliding|composed] eqn:Hc.
  - exists colliding. split; [|done].
    apply compose_onto_inl in Hc as (j & b & Hb & Hidb & Hprev).
    destruct Hprev as [[e He] | (i & a & Hlt & Ha & Hida)].
    + by rewrite lookup_empty in He.
    + exists i, j, a, b. split; [lia|]. done.
  - apply compose_onto_inr in Hc as [Hnodup _].
    by destruct (collides_not_NoDup _ _ Hshared).
Qed.

Section Served.
Context {U : URLConstructor}.
Context {OpenClawConfig : Type} (c : Collaborators OpenClawConfig).
Variable base : object.
Variable document_of : ComposedSchema -> value.

(** C4: when two contributions share an id, composition yields no schema
    but a [CompositionError] for an id that collides, whose message names
    that id; and a [GET] of the schema path whose collaborators deliver
    these contributions is answered with status 500 and that message as
    the error body. *)
Theorem duplicate_id_fails_fast contributions shared :
  collides contributions shared ->
  exists colliding,
    collides contributions colliding /\
    compose base contributions = CompositionError colliding /\
    CompositionError_message colliding
    = "duplicate contribution id: " +:+ colliding /\
    forall req cfg agentId workspaceDir registry channels,
      method req = Some "GET" ->
      pathname_of req = Some SCHEMA_PATH ->
      loadConfig c = Ok cfg ->
      resolveDefaultAgentId c cfg = Ok agentId ->
      resolveAgentWorkspaceDir c cfg agentId = Ok workspaceDir ->
      loadOpenClawPlugins c cfg workspaceDir = Ok registry ->
      listChannelPlugins c = Ok channels ->
      buildConfigSchema c = buildConfigSchema_spec base document_of ->
      normalize (map plugin_descriptor (plugins registry))
        (map channel_descriptor channels) = contributions ->
      outcome (handleConfigSchemaHttpRequest c req) = Ok true /\
      writes (log (handleConfigSchemaHttpRequest c req))
      = json_response 500
          (error_body (CompositionError_message colliding)).
Proof.
  intros Hshared.
  destruct (compose_collision base contributions shared Hshared)
    as (colliding & Hcollides & Hcompose).
  exists colliding. split; [done|]. split; [done|]. split; [done|].
  intros req cfg agentId workspaceDir registry channels
    Hmethod Hpath H1 H2 H3 H4 H5 Hbuild Hnormalize.
  assert (fails c (ErrorInstance (CompositionError_message colliding)))
    as Hfails.
  { eapply fails_buildConfigSchema; try eassumption.
    rewrite Hbuild. unfold buildConfigSchema_spec.
    by rewrite Hnormalize, Hcompose. }
  destruct (handle_GET_fails c req _ Hmethod Hpath Hfails) as (? & ? & _).
  done.
Qed.

End Served.

(** *** The properties on an explicit extension set *)

Import Samples.

Lemma telegram_collides : collides telegram_twice "telegram".
Proof.
  exists 0%nat, 1%nat, (of_plugin (plugin_descriptor telegram_plugin)),
    (of_channel (channel_descriptor telegram_channel)).
  split; [lia|]. repeat split.
Qed.

Lemma duplicate_id_fails_fast_witness :
  exists colliding,
    collides telegram_twice colliding /\
    compose ∅ telegram_twice = CompositionError colliding /\
    CompositionError_message colliding
    = "duplicate contribution id: " +:+ colliding /\
    forall req cfg agentId workspaceDir registry channels,
      method req = Some "GET" ->
      pathname_of req = Some SCHEMA_PATH ->
      loadConfig colliding_collaborators = Ok cfg ->
      resolveDefaultAgentId colliding_collaborators cfg = Ok agentId ->
      resolveAgentWorkspaceDir colliding_collaborators cfg agentId
      = Ok workspaceDir ->
      loadOpenClawPlugins colliding_collaborators cfg workspaceDir
      = Ok registry ->
      listChannelPlugins colliding_collaborators = Ok channels ->
      buildConfigSchema colliding_collaborators
      = buildConfigSchema_spec ∅ (fun _ => JObj ∅) ->
      normalize (map plugin_descriptor (plugins registry))
        (map channel_descriptor channels) = telegram_twice ->
      outcome (handleConfigSchemaHttpRequest colliding_collaborators req)
      = Ok true /\
      writes (log (handleConfigSchemaHttpRequest colliding_collaborators req))
      = json_response 500
          (error_body (CompositionError_message colliding)).
Proof.
  apply (duplicate_id_fails_fast (U := origin_form_URL)
           colliding_collaborators ∅ (fun _ => JObj ∅)
           telegram_twice "telegram").
  exact telegram_collides.
Defined.

(** The colliding extension set, served: status 500 and the id named. *)
Example telegram_twice_served :
  handleConfigSchemaHttpRequest colliding_collaborators
    {| method := Some "GET"; url := Some "/openclaw.schema.json" |}
  = (Ok true,
     [Invoked LoadConfig; Invoked ResolveDefaultAgentId;
      Invoked ResolveAgentWorkspaceDir; Invoked LoadOpenClawPlugins;
      Invoked ListChannelPlugins; Invoked BuildConfigSchema;
      Res_statusCode 500;
      Res_setHeader "Content-Type" "application/json; charset=utf-8";
      Res_end (Some (JSON_stringify
                       (JObj (<["error" :=
                                  JStr "duplicate contribution id: telegram"]>
                                ∅))))]).
Proof. vm_compute. reflexivity. Qed.

(** Distinct ids compose, one entry per id. *)
Example distinct_ids_compose :
  exists document,
    compose ∅ (normalize [plugin_descriptor telegram_plugin] [])
    = Composed document /\
    dom (extensions document) = {[ "telegram" ]}.
Proof. eexists. split; [reflexivity|]. vm_compute. reflexivity. Qed.

End SchemaComposerProps.

(** ** Further properties of the skills tool *)

Module SkillsToolCalls.
Import Js Eff EffFacts JsFacts SkillsTool SkillsToolProps.

Local Set Warnings "-clear-no-such-hyp".

Lemma readStringParam_required_Some params key r :
  readStringParam params key required = Ok r -> exists s, r = Some s.
Proof.
  unfold readStringParam.
  destruct (get params key) as [| | | |raw| |]; simpl; try discriminate.
  destruct (String.eqb (trim raw) ""); [discriminate|].
  intros [= <-]. eauto.
Qed.

(** [readStringParam] looks at the one key it is asked for. *)
Lemma readStringParam_get params params' key options :
  get params key = get params' key ->
  readStringParam params key options = readStringParam params' key options.
Proof. unfold readStringParam. by intros ->. Qed.

Lemma payload_keys_exclude method key :
  key ∉ ({[ "agentId"; "name"; "installId"; "timeoutMs"; "skillKey";
            "enabled"; "apiKey"; "env" ]} : gset string) ->
  key ∉ payload_keys method.
Proof.
  unfold payload_keys.
  repeat match goal with
         | |- context [if ?b then _ else _] => destruct b
         end; set_solver.
Qed.

(** Membership in one of the literal lists of the tool. *)
Ltac in_list :=
  unfold SKILLS_ACTIONS, SkillsToolSchema_keys, gateway_methods;
  rewrite !elem_of_cons; auto 15.

Section Execute.
Variable callGatewayTool :
  string -> GatewayCallOptions -> object -> result value.
Variable AgentToolResult : Type.
Variable jsonResult : value -> AgentToolResult.

Abbreviation run := (execute callGatewayTool jsonResult).

(** An invocation either throws before any call, or issues the one call
    of its action and settles to the answer. *)
Lemma execute_cases params :
  (exists err, run params = (Throw err, [])) \/
  (exists action url token payload,
     action_is params action /\
     action ∈ SKILLS_ACTIONS /\
     readStringParam params "gatewayUrl" untrimmed = Ok url /\
     readStringParam params "gatewayToken" untrimmed = Ok token /\
     dom payload ⊆ payload_keys ("skills." +:+ action) /\
     run params
     = (settle jsonResult
          (callGatewayTool ("skills." +:+ action)
             (options_of params url token) payload),
        [GatewayCall ("skills." +:+ action)
           (options_of params url token) payload])).
Proof.
  unfold execute.
  destruct (readStringParam params "action" required) as [r|err] eqn:Haction;
    [|left; eauto].
  destruct (readStringParam_required_Some _ _ _ Haction) as [action ->].
  destruct (readStringParam_optional params "gatewayUrl" untrimmed eq_refl)
    as [url Hurl].
  destruct (readStringParam_optional params "gatewayToken" untrimmed eq_refl)
    as [token Htoken].
  rewrite Hurl, Htoken, !bind_lift_Ok. fold (options_of params url token).
  change (default "undefined" (Some action)) with action.
  destruct (String.eqb action "status") eqn:Estatus.
  { apply String.eqb_eq in Estatus. subst action.
    destruct (readStringParam_optional params "agentId" defaults eq_refl)
      as [agentId ->].
    rewrite bind_lift_Ok, await_then_jsonResult. right.
    eexists "status", url, token, _.
    repeat (split; [first [done | in_list]|]).
    split; [|reflexivity].
    destruct (truthy (of_option agentId));
      rewrite ?dom_insert_L, ?dom_empty_L; set_solver. }
  destruct (String.eqb action "install") eqn:Einstall.
  { apply String.eqb_eq in Einstall. subst action.
    destruct (readStringParam params "name" required) as [name|err];
      [rewrite bind_lift_Ok | left; eauto].
    destruct (readStringParam params "installId" required) as [installId|err];
      [rewrite bind_lift_Ok | left; eauto].
    rewrite await_then_jsonResult. right.
    eexists "install", url, token, _.
    repeat (split; [first [done | in_list]|]).
    split; [|reflexivity]. unfold spread.
    match goal with
    | |- context [if ?b then _ else _] => destruct b
    end; rewrite dom_union_L, ?dom_insert_L, ?dom_empty_L; set_solver. }
  destruct (String.eqb action "update") eqn:Eupdate.
  { apply String.eqb_eq in Eupdate. subst action.
    destruct (readStringParam params "skillKey" required) as [skillKey|err];
      [rewrite bind_lift_Ok | left; eauto].
    rewrite await_then_jsonResult. right.
    eexists "update", url, token, _.
    repeat (split; [first [done | in_list]|]).
    split; [|reflexivity].
    repeat match goal with
           | |- context [if ?b then _ else _] => destruct b
           end; rewrite ?dom_insert_L, ?dom_empty_L; set_solver. }
  destruct (String.eqb action "bins") eqn:Ebins.
  { apply String.eqb_eq in Ebins. subst action.
    rewrite await_then_jsonResult. right.
    eexists "bins", url, token, _.
    repeat (split; [first [done | in_list]|]).
    split; [|reflexivity]. by rewrite dom_empty_L. }
  left. eauto.
Qed.

Lemma gateway_method_of_action action :
  action ∈ SKILLS_ACTIONS -> "skills." +:+ action ∈ gateway_methods.
Proof.
  unfold SKILLS_ACTIONS, gateway_methods.
  rewrite !elem_of_cons, elem_of_nil.
  intros [->|[->|[->|[->|[]]]]]; simpl; auto 10.
Qed.

(** X1: an invocation issues at most one gateway call, and a call it
    issues goes to the method of the action it was invoked with, one of
    the four [skills.*] methods. *)
Theorem at_most_one_gateway_call params :
  (length (log (run params)) <= 1)%nat /\
  forall call,
    call ∈ log (run params) ->
    call_method call ∈ gateway_methods /\
    exists action,
      action_is params action /\ call_method call = "skills." +:+ action.
Proof.
  destruct (execute_cases params)
    as [[err ->] | (action & url & token & payload & Ha & Hin & _ & _ & _ & ->)];
    cbn [log snd length].
  - split; [lia|]. by intros call ?%elem_of_nil.
  - split; [lia|]. intros call ->%list_elem_of_singleton. cbn [call_method].
    split; [by apply gateway_method_of_action | eauto].
Qed.

(** X2: an invocation that resolves has issued exactly one gateway call,
    the gateway has answered it, and the result is [jsonResult] of that
    answer. *)
Theorem resolved_wraps_gateway_answer params r :
  outcome (run params) = Ok r ->
  exists call answer,
    log (run params) = [call] /\
    callGatewayTool (call_method call) (call_opts call) (call_params call)
    = Ok answer /\
    r = jsonResult answer.
Proof.
  destruct (execute_cases params)
    as [[err ->] | (action & url & token & payload & _ & _ & _ & _ & _ & ->)];
    cbn [outcome log fst snd]; [discriminate|].
  destruct (callGatewayTool _ _ _) as [answer|err] eqn:Hanswer;
    [|discriminate].
  intros [= <-]. by eexists _, answer.
Qed.

(** X3: when the gateway rejects the call of an invocation, the
    invocation rejects with the same error, and the call is not
    repeated. *)
Theorem gateway_rejection_propagates params call err :
  call ∈ log (run params) ->
  callGatewayTool (call_method call) (call_opts call) (call_params call)
  = Throw err ->
  run params = (Throw err, [call]).
Proof.
  destruct (execute_cases params)
    as [[err' ->] | (action & url & token & payload & _ & _ & _ & _ & _ & ->)];
    cbn [log snd]; [by intros ?%elem_of_nil|].
  intros ->%list_elem_of_singleton. cbn [call_method call_opts call_params].
  by intros ->.
Qed.

(** X4: the payload of a call holds no field beyond those of its method:
    [agentId] for [skills.status]; [name], [installId], [timeoutMs] for
    [skills.install]; [skillKey], [enabled], [apiKey], [env] for
    [skills.update]; none for [skills.bins].  In particular the gateway
    URL, the gateway token and the action are never part of a payload. *)
Theorem payload_confined_to_method params call :
  call ∈ log (run params) ->
  dom (call_params call) ⊆ payload_keys (call_method call) /\
  ("gatewayUrl" ∉ dom (call_params call)) /\
  ("gatewayToken" ∉ dom (call_params call)) /\
  ("action" ∉ dom (call_params call)).
Proof.
  destruct (execute_cases params)
    as [[err ->] | (action & url & token & payload & _ & _ & _ & _ & Hdom & ->)];
    cbn [log snd]; [by intros ?%elem_of_nil|].
  intros ->%list_elem_of_singleton. cbn [call_method call_params].
  split; [done|].
  repeat split; intros Hin; apply Hdom in Hin; revert Hin;
    apply payload_keys_exclude; set_solver.
Qed.

(** X5: whatever the action, the options of the call carry the gateway
    URL and the gateway token as [readStringParam] reads them with
    trimming disabled. *)
Theorem gateway_options_as_read params call :
  call ∈ log (run params) ->
  readStringParam params "gatewayUrl" untrimmed
  = Ok (gatewayUrl (call_opts call)) /\
  readStringParam params "gatewayToken" untrimmed
  = Ok (gatewayToken (call_opts call)).
Proof.
  destruct (execute_cases params)
    as [[err ->] | (action & url & token & payload & _ & _ & Hurl & Htoken & _ & ->)];
    cbn [log snd]; [by intros ?%elem_of_nil|].
  by intros ->%list_elem_of_singleton.
Qed.

(** X6: a [status] invocation issues one [skills.status] call whose
    payload is [{ agentId }] when an agent id is read and is not the empty
    string, and the empty object otherwise. *)
Theorem status_payload_agentId params agentId :
  action_is params "status" ->
  readStringParam params "agentId" defaults = Ok agentId ->
  exists opts,
    log (run params)
    = [GatewayCall "skills.status" opts
         match agentId with
         | Some s => if String.eqb s "" then ∅ else <["agentId" := JStr s]> ∅
         | None => ∅
         end].
Proof.
  intros Haction HagentId. unfold execute.
  rewrite Haction, bind_lift_Ok.
  destruct (readStringParam_optional params "gatewayUrl" untrimmed eq_refl)
    as [url ->].
  destruct (readStringParam_optional params "gatewayToken" untrimmed eq_refl)
    as [token ->].
  rewrite !bind_lift_Ok. cbn [default String.eqb Ascii.eqb Bool.eqb].
  rewrite HagentId, bind_lift_Ok, await_then_jsonResult.
  eexists. cbn [log snd]. do 2 f_equal.
  destruct agentId as [s|]; [|done]. cbn [of_option truthy].
  by destruct (String.eqb s "").
Qed.

(** X7: an invocation depends on its arguments through the properties
    declared in [SkillsToolSchema] only: two argument objects that agree
    on them are treated alike. *)
Theorem undeclared_arguments_ignored params params' :
  (forall key, key ∈ SkillsToolSchema_keys -> params !! key = params' !! key) ->
  run params = run params'.
Proof.
  intros Hagree.
  assert (forall key, key ∈ SkillsToolSchema_keys ->
                      get params key = get params' key) as Hget.
  { intros key Hkey. unfold get. by rewrite (Hagree key Hkey). }
  assert (forall key options,
            key ∈ SkillsToolSchema_keys ->
            readStringParam params key options
            = readStringParam params' key options) as Hread.
  { intros key options Hkey. apply readStringParam_get. by apply Hget. }
  unfold execute.
  rewrite !Hread by in_list.
  rewrite !(Hget "timeoutMs"), !(Hget "enabled"), !(Hget "apiKey"),
    !(Hget "env") by in_list.
  reflexivity.
Qed.

End Execute.

(** *** The properties on explicit invocations *)

Import Samples.

Abbreviation run_sample := (execute null_gateway (fun v : value => v)).

Lemma at_most_one_gateway_call_witness :
  let call :=
    GatewayCall "skills.bins"
      {| gatewayUrl := None; gatewayToken := None;
         timeoutMs := Finite 60000 |} ∅ in
  (length (log (run_sample (bins_args JUndefined))) <= 1)%nat /\
  call_method call ∈ gateway_methods /\
  exists action,
    action_is (bins_args JUndefined) action /\
    call_method call = "skills." +:+ action.
Proof.
  intros call.
  destruct (at_most_one_gateway_call null_gateway value (fun v => v)
              (bins_args JUndefined)) as [Hlength Hcalls].
  split; [exact Hlength|].
  apply (Hcalls call). vm_compute. apply list_elem_of_here.
Defined.

Lemma resolved_wraps_gateway_answer_witness :
  exists call answer,
    log (run_sample (status_args (JStr "worker"))) = [call] /\
    null_gateway (call_method call) (call_opts call) (call_params call)
    = Ok answer /\
    JNull = answer.
Proof.
  apply (resolved_wraps_gateway_answer null_gateway value (fun v => v)
           (status_args (JStr "worker")) JNull).
  reflexivity.
Defined.

Lemma gateway_rejection_propagates_witness :
  let call :=
    GatewayCall "skills.bins"
      {| gatewayUrl := None; gatewayToken := None;
         timeoutMs := Finite 60000 |} ∅ in
  execute rejecting_gateway (fun v : value => v) (bins_args JUndefined)
  = (Throw (ErrorInstance "gateway timeout"), [call]).
Proof.
  intros call.
  apply (gateway_rejection_propagates rejecting_gateway value (fun v => v)
           (bins_args JUndefined) call (ErrorInstance "gateway timeout")).
  - vm_compute. apply list_elem_of_here.
  - reflexivity.
Defined.

Lemma payload_confined_to_method_witness :
  let call :=
    GatewayCall "skills.update"
      {| gatewayUrl := None; gatewayToken := Some "secret";
         timeoutMs := Finite 60000 |}
      (<["enabled" := JBool false]> (<["skillKey" := JStr "my-skill"]> ∅)) in
  dom (call_params call) ⊆ payload_keys (call_method call) /\
  ("gatewayUrl" ∉ dom (call_params call)) /\
  ("gatewayToken" ∉ dom (call_params call)) /\
  ("action" ∉ dom (call_params call)).
Proof.
  intros call.
  apply (payload_confined_to_method null_gateway value (fun v => v)
           (<["gatewayToken" := JStr "secret"]> (update_args (JArr [])))).
  vm_compute. apply list_elem_of_here.
Defined.

Lemma gateway_options_as_read_witness :
  let call :=
    GatewayCall "skills.update"
      {| gatewayUrl := None; gatewayToken := Some "secret";
         timeoutMs := Finite 60000 |}
      (<["enabled" := JBool false]> (<["skillKey" := JStr "my-skill"]> ∅)) in
  let params := <["gatewayToken" := JStr "secret"]> (update_args (JArr [])) in
  readStringParam params "gatewayUrl" untrimmed
  = Ok (gatewayUrl (call_opts call)) /\
  readStringParam params "gatewayToken" untrimmed
  = Ok (gatewayToken (call_opts call)).
Proof.
  intros call params.
  apply (gateway_options_as_read null_gateway value (fun v => v) params call).
  vm_compute. apply list_elem_of_here.
Defined.

Lemma status_payload_agentId_witness :
  exists opts,
    log (run_sample (status_args (JStr "worker")))
    = [GatewayCall "skills.status" opts (<["agentId" := JStr "worker"]> ∅)].
Proof.
  apply (status_payload_agentId null_gateway value (fun v => v)
           (status_args (JStr "worker")) (Some "worker")); reflexivity.
Defined.

(** Without an agent id, and with one that is not a string, the payload
    is empty. *)
Example status_without_agentId :
  log (run_sample (status_args JUndefined))
  = [GatewayCall "skills.status"
       {| gatewayUrl := None; gatewayToken := None;
          timeoutMs := Finite 60000 |} ∅] /\
  log (run_sample (status_args (JNum (Finite 7))))
  = [GatewayCall "skills.status"
       {| gatewayUrl := None; gatewayToken := None;
          timeoutMs := Finite 60000 |} ∅].
Proof. split; vm_compute; reflexivity. Qed.

Lemma undeclared_arguments_ignored_witness :
  run_sample (install_args (JNum (Finite 5)))
  = run_sample (<["verbose" := JBool true]> (install_args (JNum (Finite 5)))).
Proof.
  apply (undeclared_arguments_ignored null_gateway value (fun v => v)).
  intros key Hkey. rewrite lookup_insert_ne; [reflexivity|].
  intros <-. revert Hkey. unfold SkillsToolSchema_keys.
  rewrite !elem_of_cons, elem_of_nil. intros H.
  repeat (destruct H as [H|H]; [discriminate|]). exact H.
Defined.

End SkillsToolCalls.

(** ** Further properties of the HTTP handler *)

Module ConfigSchemaHttpRouting.
Import Js Eff EffFacts ConfigSchemaHttp ConfigSchemaHttpProps.

Section Handler.
Context {U : URLConstructor}.
Context {OpenClawConfig : Type} (c : Collaborators OpenClawConfig).

Abbreviation handle := (handleConfigSchemaHttpRequest c).












End Handler.

(** *** The properties on explicit requests *)

Import Samples.



(** A schema that holds a cycle: status 200 and the header are set, then
    replaced by the 500 response. *)
Example cyclic_schema_answered_500 :
  handleConfigSchemaHttpRequest cyclic_collaborators
    {| method := Some "GET"; url := Some "/openclaw.schema.json" |}
  = (Ok true,
     [Invoked LoadConfig; Invoked ResolveDefaultAgentId;
      Invoked ResolveAgentWorkspaceDir; Invoked LoadOpenClawPlugins;
      Invoked ListChannelPlugins; Invoked BuildConfigSchema;
      Res_statusCode 200;
      Res_setHeader "Content-Type" "application/json; charset=utf-8";
      Res_statusCode 500;
      Res_setHeader "Content-Type" "application/json; charset=utf-8";
      Res_end (Some (JSON_stringify
                       (JObj (<["error" :=
                                  JStr "Converting circular structure to JSON"]>
                                ∅))))]).
Proof. vm_compute. reflexivity. Qed.




(** A failure in the middle of the [try] block: the collaborators after
    the failing one are not called. *)
Example channel_listing_fails :
  handleConfigSchemaHttpRequest
    {| loadConfig := Ok tt;
       resolveDefaultAgentId := fun _ => Ok "main";
       resolveAgentWorkspaceDir := fun _ _ => Ok "/workspace";
       loadOpenClawPlugins := fun _ _ => Ok {| plugins := [] |};
       listChannelPlugins := Throw (ErrorInstance "channel registry locked");
       buildConfigSchema := fun _ _ => Ok {| schema := Json (JObj ∅) |} |}
    {| method := Some "GET"; url := Some "/openclaw.schema.json" |}
  = (Ok true,
     [Invoked LoadConfig; Invoked ResolveDefaultAgentId;
      Invoked ResolveAgentWorkspaceDir; Invoked LoadOpenClawPlugins;
      Invoked ListChannelPlugins;
      Res_statusCode 500;
      Res_setHeader "Content-Type" "application/json; charset=utf-8";
      Res_end (Some (JSON_stringify
                       (JObj (<["error" := JStr "channel registry locked"]>
                                ∅))))]).
Proof. vm_compute. reflexivity. Qed.

End ConfigSchemaHttpRouting.
